(** * JustCMS Angular client: a shallow embedding of [just-cms.service.ts]

    The service is a thin wrapper around Angular's [HttpClient]: every
    public operation builds one GET request (URL, bearer header, query
    parameters), sends it, and maps the reply.  Four helpers are pure
    functions over data that was already fetched.

    The file has six parts: the fragment of the JavaScript runtime the
    service relies on (optional values, truthiness, numbers and
    [String(...)], lower-casing, arrays, plain objects); Angular's
    [HttpParams], requests and single-shot observables; the response
    shapes; the service itself, method by method; the properties of
    each operation; and further properties of the service as a whole. *)

From Stdlib Require Import List String Ascii ZArith Bool Lia Permutation.
From Stdlib Require DecimalString DecimalZ.
Import ListNotations.
Open Scope string_scope.

(* ================================================================== *)
(** * Part 1. The JavaScript values the service handles               *)
(* ================================================================== *)

Module Js.

(** A JavaScript string is modelled by the [string] of its UTF-8 bytes;
    two strings are equal when they have the same characters. *)

(** A value of static type [A] that may, at run time, be [undefined] or
    [null].  Used wherever the source tests for absence ([!x], [x?.f],
    [x !== undefined], [x && ...]) or declares a member optional. *)
Inductive maybe (A : Type) : Type :=
| undefined
| null
| def (a : A).
Arguments undefined {A}.
Arguments null {A}.
Arguments def {A} a.

Definition maybe_map {A B} (f : A -> B) (m : maybe A) : maybe B :=
  match m with
  | undefined => undefined
  | null => null
  | def a => def (f a)
  end.

(** [m?.f]: short-circuits to [undefined] on a nullish receiver. *)
Definition optchain {A B} (m : maybe A) (f : A -> maybe B) : maybe B :=
  match m with
  | def a => f a
  | _ => undefined
  end.

(** [m !== undefined] *)
Definition is_defined {A} (m : maybe A) : bool :=
  match m with
  | undefined => false
  | _ => true
  end.

(** [m !== undefined && m !== null] *)
Definition not_nullish {A} (m : maybe A) : bool :=
  match m with
  | def _ => true
  | _ => false
  end.

(** The integers of the transport: HTTP status codes, and [0] for a
    network error.  [String(...)] prints them in plain decimal. *)
Definition integer := Z.

Definition integer_toString (n : integer) : string :=
  DecimalString.NilEmpty.string_of_int (Z.to_int n).

(** JavaScript numbers (IEEE doubles).  The service never computes with
    a number, it only hands it on and prints it, so a number is given
    here by what [Number::toString] reads off it: [NaN], an infinity, a
    zero, or, for a finite non-zero number, its sign and the integers
    [s] and [n] of its shortest decimal form, the value being
    [0.d1 d2 ... dk * 10^n] for the decimal digits [d1 ... dk] of [s].
    Every double has such a form; trailing zeros of [s] do not change
    the value and are dropped before printing. *)
Inductive number : Type :=
| NaN
| Infinity (negative : bool)
| Zero (negative : bool)
| Finite (negative : bool) (s : positive) (n : Z).

(** The number an integer literal denotes: exact for the integers that
    are doubles, those up to [2^53] in magnitude among them. *)
Definition of_Z (z : Z) : number :=
  match z with
  | Z0 => Zero false
  | Zpos p =>
      Finite false p
             (Z.of_nat (String.length
                          (DecimalString.NilEmpty.string_of_uint (Pos.to_uint p))))
  | Zneg p =>
      Finite true p
             (Z.of_nat (String.length
                          (DecimalString.NilEmpty.string_of_uint (Pos.to_uint p))))
  end.

Fixpoint strip_trailing_zeros (digits : string) : string :=
  match digits with
  | EmptyString => EmptyString
  | String d rest =>
      match strip_trailing_zeros rest with
      | EmptyString => if Ascii.eqb d "0" then EmptyString else String d EmptyString
      | kept => String d kept
      end
  end.

Fixpoint zeros (count : nat) : string :=
  match count with
  | O => EmptyString
  | S count' => String "0" (zeros count')
  end.

(** Steps 6 to 10 of [Number::toString] (radix 10), on the [k] digits
    of [s] and the exponent [n]. *)
Definition format_decimal (digits : string) (n : Z) : string :=
  let k := Z.of_nat (String.length digits) in
  if ((k <=? n) && (n <=? 21))%Z then
    digits ++ zeros (Z.to_nat (n - k))
  else if ((0 <? n) && (n <=? 21))%Z then
    substring 0 (Z.to_nat n) digits ++ "."
      ++ substring (Z.to_nat n) (Z.to_nat (k - n)) digits
  else if ((-6 <? n) && (n <=? 0))%Z then
    "0." ++ zeros (Z.to_nat (- n)) ++ digits
  else
    let e := (n - 1)%Z in
    let exponent :=
      "e" ++ (if (e <? 0)%Z then "-" else "+") ++ integer_toString (Z.abs e) in
    match digits with
    | EmptyString => exponent
    | String d EmptyString => String d exponent
    | String d rest => String d ("." ++ rest ++ exponent)
    end.

(** [Number::toString(x)], that is [String(x)] for a number. *)
Definition number_toString (x : number) : string :=
  match x with
  | NaN => "NaN"
  | Zero _ => "0"
  | Infinity negative => (if negative then "-" else "") ++ "Infinity"
  | Finite negative s n =>
      (if negative then "-" else "")
        ++ format_decimal
             (strip_trailing_zeros
                (DecimalString.NilEmpty.string_of_uint (Pos.to_uint s)))
             n
  end.

(** The primitive values that flow through a [Record<string, any>]. *)
Inductive prim : Type :=
| PBoolean (b : bool)
| PNumber (n : number)
| PString (s : string).

Definition any := maybe prim.

Definition of_number (m : maybe number) : any := maybe_map PNumber m.
Definition of_string (m : maybe string) : any := maybe_map PString m.

(** [String(v)], also the conversion applied by a template literal. *)
Definition String_ (v : any) : string :=
  match v with
  | undefined => "undefined"
  | null => "null"
  | def (PBoolean true) => "true"
  | def (PBoolean false) => "false"
  | def (PNumber n) => number_toString n
  | def (PString s) => s
  end.

(** ToBoolean on strings: only the empty string is falsy. *)
Definition truthy_string (s : string) : bool :=
  match s with
  | EmptyString => false
  | String _ _ => true
  end.

(** ToBoolean on an optional string: [undefined], [null] and [''] are
    falsy. *)
Definition truthy (m : maybe string) : bool :=
  match m with
  | def s => truthy_string s
  | _ => false
  end.

(** "Empty or absent": the three falsy values of an optional string. *)
Definition missing (m : maybe string) : Prop :=
  m = undefined \/ m = null \/ m = def "".

(** Lower-casing of ASCII text: the letters [A] to [Z] go to [a] to
    [z], every other character stays. *)
Definition lower_char (c : ascii) : ascii :=
  let n := nat_of_ascii c in
  if (Nat.leb 65 n && Nat.leb n 90)%bool then ascii_of_nat (n + 32) else c.

Fixpoint ascii_toLowerCase (s : string) : string :=
  match s with
  | EmptyString => EmptyString
  | String c rest => String (lower_char c) (ascii_toLowerCase rest)
  end.

(** Text made of ASCII characters only. *)
Fixpoint is_ascii (s : string) : bool :=
  match s with
  | EmptyString => true
  | String c rest => (Nat.ltb (nat_of_ascii c) 128 && is_ascii rest)%bool
  end.

(** [String.prototype.toLowerCase].  The Unicode case tables it follows
    are the runtime's, not the service's: the conversion is taken as an
    operation of the runtime, known here by what it does to ASCII
    text. *)
Class CaseConversion : Type := {
  toLowerCase : string -> string;
  toLowerCase_ascii :
    forall s, is_ascii s = true -> toLowerCase s = ascii_toLowerCase s
}.

(** The outcome of a call that reads a member of a value: the value of
    the call, or the [TypeError] the runtime throws when the member is
    read off [undefined] or [null]. *)
Inductive checked (A : Type) : Type :=
| Value (a : A)
| TypeError.
Arguments Value {A} a.
Arguments TypeError {A}.

(** [Array.prototype.includes] on an array of strings (SameValueZero on
    strings is plain equality of their contents). *)
Fixpoint includes (xs : list string) (x : string) : bool :=
  match xs with
  | [] => false
  | y :: rest => if String.eqb y x then true else includes rest x
  end.

(** [String.prototype.includes]: does [part] occur somewhere in [s]? *)
Fixpoint str_includes (s part : string) : bool :=
  if String.prefix part s then true
  else match s with
       | EmptyString => false
       | String _ rest => str_includes rest part
       end.

(** [xs[i]]: reading past the end of an array gives [undefined]. *)
Definition index {A} (xs : list A) (i : nat) : maybe A :=
  match nth_error xs i with
  | Some a => def a
  | None => undefined
  end.

(** A plain object used as a string-keyed record: its entries, in the
    order in which the keys were first assigned. *)
Definition object := list (string * any).

(** [o[k] = v]: overwrites in place when [k] is already a key, appends
    otherwise. *)
Fixpoint assign (o : object) (k : string) (v : any) : object :=
  match o with
  | [] => [(k, v)]
  | (k', v') :: rest =>
      if String.eqb k' k then (k', v) :: rest else (k', v') :: assign rest k v
  end.

(** A key is an array index when it is the decimal numeral, without
    leading zeros, of an integer from [0] to [2^32 - 2]. *)
Definition array_index (k : string) : option N :=
  match DecimalString.NilEmpty.uint_of_string k with
  | Some d =>
      let i := N.of_uint d in
      if (String.eqb (DecimalString.NilEmpty.string_of_uint (N.to_uint i)) k
          && N.leb i 4294967294)%bool
      then Some i else None
  | None => None
  end.

Definition is_array_index (entry : string * any) : bool :=
  match array_index (fst entry) with
  | Some _ => true
  | None => false
  end.

Definition index_of (entry : string * any) : N :=
  match array_index (fst entry) with
  | Some i => i
  | None => 0%N
  end.

(** Insertion into a list of entries that is ascending in the index. *)
Fixpoint insert_by_index (entry : string * any) (sorted : list (string * any))
  : list (string * any) :=
  match sorted with
  | [] => [entry]
  | e :: rest =>
      if N.leb (index_of entry) (index_of e) then entry :: e :: rest
      else e :: insert_by_index entry rest
  end.

Definition sort_by_index (es : list (string * any)) : list (string * any) :=
  fold_right insert_by_index [] es.

(** [Object.entries(o)]: the entries whose key is an array index come
    first, in ascending order of the index, then the other entries in
    the order in which their keys were assigned. *)
Definition entries (o : object) : list (string * any) :=
  (sort_by_index (List.filter is_array_index o)
     ++ List.filter (fun e => negb (is_array_index e)) o)%list.

(** An [Error] object; only its message matters here. *)
Record Error : Type := new_Error { message : string }.

(** The outcome of a synchronous call that may throw. *)
Inductive completion (A : Type) : Type :=
| Return (a : A)
| Throw (e : Error).
Arguments Return {A} a.
Arguments Throw {A} e.

End Js.

(* ================================================================== *)
(** * Part 2. Angular's HTTP client and single-shot observables       *)
(* ================================================================== *)

Module Ng.
Import Js.

(** [HttpParams]: an immutable, insertion-ordered map from parameter
    names to their (string) values. *)
Definition HttpParams := list (string * string).

Definition new_HttpParams : HttpParams := [].

(** [params.set(k, v)]: a copy in which [k] carries exactly [v]. *)
Fixpoint set (p : HttpParams) (k v : string) : HttpParams :=
  match p with
  | [] => [(k, v)]
  | (k', v') :: rest =>
      if String.eqb k' k then (k', v) :: rest else (k', v') :: set rest k v
  end.

(** [params.get(k)] and [params.has(k)] *)
Fixpoint get_param (p : HttpParams) (k : string) : option string :=
  match p with
  | [] => None
  | (k', v) :: rest => if String.eqb k' k then Some v else get_param rest k
  end.

Definition has (p : HttpParams) (k : string) : bool :=
  match get_param p k with
  | Some _ => true
  | None => false
  end.

(** [HttpHeaders], built from an object literal. *)
Definition HttpHeaders := list (string * string).

Inductive Method : Type := GET | POST | PUT | DELETE.

(** What goes on the wire. *)
Record Request : Type := {
  method : Method;
  url : string;
  headers : HttpHeaders;
  params : HttpParams
}.

(** A transport failure: a non-2xx reply carries its status code, a
    network error carries status [0]. *)
Record HttpErrorResponse : Type := {
  status : integer;
  message : string
}.

(** The injected [HttpClient], seen from the service: for a request it
    either fails or delivers a body, which [http.get<T>] hands over as
    a [T] without validation. *)
Definition HttpClient (T : Type) : Type := Request -> HttpErrorResponse + T.

(** A computation together with the requests it issued, in order. *)
Record traced (A : Type) : Type := {
  sent : list Request;
  outcome : A
}.
Arguments sent {A} _.
Arguments outcome {A} _.

(** What a subscriber of a single-shot observable sees: one value and
    completion, or one error. *)
Inductive notification (E T : Type) : Type :=
| Emit (value : T)
| Fail (err : E).
Arguments Emit {E T} value.
Arguments Fail {E T} err.

(** An observable that emits at most once, described by one
    subscription: the requests it causes and the notification the
    subscriber receives. *)
Definition Observable (E T : Type) : Type := traced (notification E T).

(** [http.get<T>(url, { headers, params })] *)
Definition http_get {T} (http : HttpClient T) (url : string)
           (headers : HttpHeaders) (params : HttpParams)
  : Observable HttpErrorResponse T :=
  let req := {| method := GET; url := url;
                headers := headers; params := params |} in
  {| sent := [req];
     outcome := match http req with
                | inl failure => Fail failure
                | inr body => Emit body
                end |}.

(** [source.pipe(op)] *)
Definition pipe {A B} (source : A) (op : A -> B) : B := op source.

(** rxjs [map] *)
Definition map {E A B} (f : A -> B) (source : Observable E A)
  : Observable E B :=
  {| sent := sent source;
     outcome := match outcome source with
                | Emit v => Emit (f v)
                | Fail e => Fail e
                end |}.

(** rxjs [throwError(factory)] *)
Definition throwError {E T} (factory : unit -> E) : Observable E T :=
  {| sent := []; outcome := Fail (factory tt) |}.

(** rxjs [catchError(selector)]: on an error, continues with the
    observable the selector returns. *)
Definition catchError {E E' T} (selector : E -> Observable E' T)
           (source : Observable E T) : Observable E' T :=
  match outcome source with
  | Emit v => {| sent := sent source; outcome := Emit v |}
  | Fail e =>
      let replacement := selector e in
      {| sent := sent source ++ sent replacement;
         outcome := outcome replacement |}
  end.

End Ng.

(* ================================================================== *)
(** * Part 3. The response shapes                                     *)
(* ================================================================== *)

(** Each TypeScript interface is a record in a module of its own, so that
    members keep their source names ([Category.slug], [PageDetail.slug]). *)

Module Category.
Record t : Type := { name : string; slug : string }.
End Category.

Module CategoriesResponse.
Record t : Type := { categories : list Category.t }.
End CategoriesResponse.

Module ImageVariant.
Record t : Type := {
  url : string;
  width : Js.number;
  height : Js.number;
  filename : string
}.
End ImageVariant.

Module Image.
Record t : Type := { alt : string; variants : list ImageVariant.t }.
End Image.

Module PageSummary.
Record t : Type := {
  title : string;
  subtitle : string;
  coverImage : option Image.t;      (* Image | null *)
  slug : string;
  categories : list Category.t;
  createdAt : string;
  updatedAt : string
}.
End PageSummary.

Module PagesResponse.
Record t : Type := { items : list PageSummary.t; total : Js.number }.
End PagesResponse.

Module HeaderBlock.
Record t : Type := {
  styles : list string;
  header : string;
  subheader : option string;
  size : string
}.
End HeaderBlock.

Module ListBlock.
Record option_t : Type := {
  title : string;
  subtitle : Js.maybe string
}.
Record t : Type := { styles : list string; options : list option_t }.
End ListBlock.

Module EmbedBlock.
Record t : Type := { styles : list string; url : string }.
End EmbedBlock.

Module ImageBlock.
Record t : Type := { styles : list string; images : list Image.t }.
End ImageBlock.

Module CodeBlock.
Record t : Type := { styles : list string; code : string }.
End CodeBlock.

Module TextBlock.
Record t : Type := { styles : list string; text : string }.
End TextBlock.

Module CtaBlock.
Record t : Type := {
  styles : list string;
  text : string;
  url : string;
  description : Js.maybe string
}.
End CtaBlock.

Module CustomBlock.
Record t : Type := {
  styles : list string;
  blockId : string;
  extra : Js.object                (* [key: string]: any *)
}.
End CustomBlock.

(** The union, discriminated by its [type] tag. *)
Inductive ContentBlock : Type :=
| header (b : HeaderBlock.t)
| list_ (b : ListBlock.t)
| embed (b : EmbedBlock.t)
| image (b : ImageBlock.t)
| code (b : CodeBlock.t)
| text (b : TextBlock.t)
| cta (b : CtaBlock.t)
| custom (b : CustomBlock.t).

Module PageDetail.
Record meta_t : Type := { meta_title : string; meta_description : string }.
Record t : Type := {
  title : string;
  subtitle : string;
  meta : meta_t;
  coverImage : option Image.t;
  slug : string;
  categories : list Category.t;
  content : list ContentBlock;
  createdAt : string;
  updatedAt : string
}.
End PageDetail.

Module MenuItem.
#[warnings="-register-all"]
Inductive t : Type :=
  Build (title : string) (subtitle : Js.maybe string) (icon : string)
        (url : string) (styles : list string) (children : list t).
Definition styles (m : t) : list string :=
  let '(Build _ _ _ _ s _) := m in s.
Definition children (m : t) : list t :=
  let '(Build _ _ _ _ _ c) := m in c.
End MenuItem.

Module Menu.
Record t : Type := { id : string; name : string; items : list MenuItem.t }.
End Menu.

Module PageFilters.
(** Declared as [{ category: { slug: string } }]; [getPages] reads it
    through [?.] at every level, so every level may be missing. *)
Record category_t : Type := { slug : Js.maybe string }.
Record t : Type := { category : Js.maybe category_t }.
End PageFilters.

Module JustCmsConfig.
(** Declared as two strings; the constructor checks both for
    falsiness, so both may be missing. *)
Record t : Type := {
  apiToken : Js.maybe string;
  projectId : Js.maybe string
}.
End JustCmsConfig.

(** The structural parameter types of the helpers: anything with a
    [styles] member, anything with an [images] member.  What is read
    off the member at run time may be missing. *)
Class HasStyles (A : Type) : Type := styles : A -> Js.maybe (list string).

(** [getFirstImage] guards against a missing [images] member. *)
Class HasImages (A : Type) : Type := images : A -> Js.maybe (list Image.t).

#[export] Instance ContentBlock_HasStyles : HasStyles ContentBlock :=
  fun block =>
    Js.def match block with
           | header b => HeaderBlock.styles b
           | list_ b => ListBlock.styles b
           | embed b => EmbedBlock.styles b
           | image b => ImageBlock.styles b
           | code b => CodeBlock.styles b
           | text b => TextBlock.styles b
           | cta b => CtaBlock.styles b
           | custom b => CustomBlock.styles b
           end.

#[export] Instance MenuItem_HasStyles : HasStyles MenuItem.t :=
  fun item => Js.def (MenuItem.styles item).

#[export] Instance ImageBlock_HasImages : HasImages ImageBlock.t :=
  fun block => Js.def (ImageBlock.images block).

(** An object literal with at most a [styles] member, as in
    [isBlockHasStyle({ styles: [...] }, ...)]. *)
Record styled : Type := { styled_styles : Js.maybe (list string) }.
#[export] Instance styled_HasStyles : HasStyles styled := styled_styles.

(** An object that may or may not carry [images]. *)
Record pictured : Type := { pictured_images : Js.maybe (list Image.t) }.
#[export] Instance pictured_HasImages : HasImages pictured := pictured_images.

(* ================================================================== *)
(** * Part 4. The service                                             *)
(* ================================================================== *)

Module JustCmsService.
Import Js Ng.

(** The instance: its private [BASE_URL] and the injected configuration.
    The injected [HttpClient] is handed to each method instead, typed at
    the body that method declares in [http.get<T>]. *)
Record t : Type := {
  BASE_URL : string;
  config : JustCmsConfig.t
}.

Definition throw {A} (msg : string) : traced (completion A) :=
  {| sent := []; outcome := Throw (new_Error msg) |}.

Definition constructed {A} (a : A) : traced (completion A) :=
  {| sent := []; outcome := Return a |}.

(** [constructor(http, config)] *)
Definition constructor (config : JustCmsConfig.t) : traced (completion t) :=
  if negb (truthy (JustCmsConfig.apiToken config)) then
    throw "JustCMS API token is required"
  else if negb (truthy (JustCmsConfig.projectId config)) then
    throw "JustCMS project ID is required"
  else
    constructed {| BASE_URL := "https://api.justcms.co/public";
                   config := config |}.

(** The [forEach] body of [get]: one entry of the query object. *)
Definition add_entry (params : HttpParams) (entry : string * any) : HttpParams :=
  let '(key, value) := entry in
  if not_nullish value then set params key (String_ value) else params.

(** The pieces of [get], named after its locals.  [endpoint] defaults to
    [''] when the argument is [undefined]; an empty endpoint adds no
    path segment. *)
Definition get_url (this : t) (endpoint : maybe string) : string :=
  let endpoint := match endpoint with undefined => def "" | given => given end in
  (BASE_URL this ++ "/"
     ++ String_ (of_string (JustCmsConfig.projectId (config this))))
    ++ (if truthy endpoint then "/" ++ String_ (of_string endpoint) else "").

Definition get_params (queryParams : maybe object) : HttpParams :=
  let params := new_HttpParams in
  match queryParams with
  | def q => fold_left add_entry (entries q) params   (* an object is truthy *)
  | _ => params
  end.

Definition get_headers (this : t) : HttpHeaders :=
  [("Authorization",
    "Bearer " ++ String_ (of_string (JustCmsConfig.apiToken (config this))))].

Definition get_errorMsg (error : HttpErrorResponse) : string :=
  "JustCMS API error " ++ integer_toString (status error)
    ++ ": " ++ Ng.message error.

(** The request [get] hands to [http.get]. *)
Definition get_request (this : t) (endpoint : maybe string)
           (queryParams : maybe object) : Request :=
  {| method := GET;
     url := get_url this endpoint;
     headers := get_headers this;
     params := get_params queryParams |}.

(** [private get<T>(endpoint = '', queryParams?)] *)
Definition get {T} (http : HttpClient T) (this : t)
           (endpoint : maybe string) (queryParams : maybe object)
  : Observable Error T :=
  let url := get_url this endpoint in
  let params := get_params queryParams in
  let headers := get_headers this in
  pipe (http_get http url headers params)
       (catchError (fun error : HttpErrorResponse =>
          let errorMsg := get_errorMsg error in
          throwError (fun _ => new_Error errorMsg))).

(** [getCategories()] *)
Definition getCategories (http : HttpClient CategoriesResponse.t) (this : t)
  : Observable Error (list Category.t) :=
  pipe (get http this undefined undefined)
       (map (fun response => CategoriesResponse.categories response)).

(** The argument of [getPages]. *)
Record PagesParams : Type := {
  filters : maybe PageFilters.t;
  start : maybe number;
  offset : maybe number
}.

(** [params?.filters?.category?.slug] *)
Definition filter_slug (params : maybe PagesParams) : maybe string :=
  optchain (optchain (optchain params filters) PageFilters.category)
           PageFilters.slug.

(** The [query] object [getPages] builds.  Inside each [if] the source
    reads the member again without [?.]; the guard has just established
    that the chain is not broken, so the value read is the guarded one. *)
Definition getPages_query (params : maybe PagesParams) : object :=
  let query : object := [] in
  let query :=
    if truthy (filter_slug params)
    then assign query "filter.category.slug" (of_string (filter_slug params))
    else query in
  let query :=
    if is_defined (optchain params start)
    then assign query "start" (of_number (optchain params start))
    else query in
  let query :=
    if is_defined (optchain params offset)
    then assign query "offset" (of_number (optchain params offset))
    else query in
  query.

(** [getPages(params?)] *)
Definition getPages (http : HttpClient PagesResponse.t) (this : t)
           (params : maybe PagesParams) : Observable Error PagesResponse.t :=
  get http this (def "pages") (def (getPages_query params)).

(** The [query] object [getPageBySlug] builds. *)
Definition getPageBySlug_query (version : maybe string) : object :=
  let query : object := [] in
  let query :=
    if truthy version then assign query "v" (of_string version) else query in
  query.

(** [getPageBySlug(slug, version?)] *)
Definition getPageBySlug (http : HttpClient PageDetail.t) (this : t)
           (slug : string) (version : maybe string)
  : Observable Error PageDetail.t :=
  get http this (def ("pages/" ++ slug)) (def (getPageBySlug_query version)).

(** [getMenuById(id)] *)
Definition getMenuById (http : HttpClient Menu.t) (this : t) (id : string)
  : Observable Error Menu.t :=
  get http this (def ("menus/" ++ id)) undefined.

(** The four helpers do not touch [this]. *)

(** [isBlockHasStyle(block, style)].  [block.styles.map] throws when
    [block.styles] is missing. *)
Definition isBlockHasStyle `{CaseConversion} {A} `{HasStyles A}
           (block : A) (style : string) : checked bool :=
  match styles block with
  | def list =>
      Value (includes (List.map (fun s => toLowerCase s) list)
                      (toLowerCase style))
  | _ => TypeError
  end.

(** [getLargeImageVariant(image)] *)
Definition getLargeImageVariant (image : Image.t) : maybe ImageVariant.t :=
  index (Image.variants image) 1.

(** [getFirstImage(block)] *)
Definition getFirstImage {A} `{HasImages A} (block : A) : maybe Image.t :=
  match images block with
  | def imgs => if Nat.ltb 0 (List.length imgs) then index imgs 0 else undefined
  | _ => undefined
  end.

(** [hasCategory(page, categorySlug)] *)
Definition hasCategory (page : PageDetail.t) (categorySlug : string) : bool :=
  includes (List.map (fun category => Category.slug category)
                     (PageDetail.categories page))
           categorySlug.

End JustCmsService.

(** ** Sample values for the worked examples *)

Definition demo_config : JustCmsConfig.t :=
  {| JustCmsConfig.apiToken := Js.def "secret";
     JustCmsConfig.projectId := Js.def "demo" |}.

Definition demo_service : JustCmsService.t :=
  {| JustCmsService.BASE_URL := "https://api.justcms.co/public";
     JustCmsService.config := demo_config |}.

Definition not_found : Ng.HttpErrorResponse :=
  {| Ng.status := 404%Z; Ng.message := "Not Found" |}.

Definition demo_categories : CategoriesResponse.t :=
  {| CategoriesResponse.categories :=
       [ {| Category.name := "News"; Category.slug := "news" |};
         {| Category.name := "Blog"; Category.slug := "blog" |} ] |}.

(** [{ filters: { category: { slug: 'blog' } }, start: 10, offset: 5 }] *)
Definition blog_page_params : JustCmsService.PagesParams :=
  {| JustCmsService.filters :=
       Js.def {| PageFilters.category :=
                   Js.def {| PageFilters.slug := Js.def "blog" |} |};
     JustCmsService.start := Js.def (Js.of_Z 10);
     JustCmsService.offset := Js.def (Js.of_Z 5) |}.

(** [{ filters: { category: { slug } }, start, offset }] *)
Definition filtered_page_params (slug : string) (start offset : Js.maybe Js.number)
  : JustCmsService.PagesParams :=
  {| JustCmsService.filters :=
       Js.def {| PageFilters.category :=
                   Js.def {| PageFilters.slug := Js.def slug |} |};
     JustCmsService.start := start;
     JustCmsService.offset := offset |}.

(** [{ start, offset }] *)
Definition unfiltered_page_params (start offset : Js.maybe Js.number)
  : JustCmsService.PagesParams :=
  {| JustCmsService.filters := Js.undefined;
     JustCmsService.start := start;
     JustCmsService.offset := offset |}.

(** An image whose second variant is the smaller one. *)
Definition first_variant : ImageVariant.t :=
  {| ImageVariant.url := "https://cdn.example/a.png";
     ImageVariant.width := Js.of_Z 1600;
     ImageVariant.height := Js.of_Z 900;
     ImageVariant.filename := "a.png" |}.

Definition second_variant : ImageVariant.t :=
  {| ImageVariant.url := "https://cdn.example/b.png";
     ImageVariant.width := Js.of_Z 160;
     ImageVariant.height := Js.of_Z 90;
     ImageVariant.filename := "b.png" |}.

Definition cover_image : Image.t :=
  {| Image.alt := "cover";
     Image.variants := [first_variant; second_variant] |}.

(** A page filed under "Blog" (capitalised) and "news". *)
Definition sample_page : PageDetail.t :=
  {| PageDetail.title := "About us";
     PageDetail.subtitle := "";
     PageDetail.meta := {| PageDetail.meta_title := "About us";
                           PageDetail.meta_description := "" |};
     PageDetail.coverImage := Some cover_image;
     PageDetail.slug := "about-us";
     PageDetail.categories :=
       [ {| Category.name := "Blog"; Category.slug := "Blog" |};
         {| Category.name := "News"; Category.slug := "news" |} ];
     PageDetail.content :=
       [ image {| ImageBlock.styles := ["Wide"];
                  ImageBlock.images := [cover_image] |} ];
     PageDetail.createdAt := "2024-01-01T00:00:00Z";
     PageDetail.updatedAt := "2024-01-02T00:00:00Z" |}.

(** The same categories as [sample_page], reordered, renamed and with a
    repetition. *)
Definition shuffled_page : PageDetail.t :=
  {| PageDetail.title := "Contact";
     PageDetail.subtitle := "";
     PageDetail.meta := {| PageDetail.meta_title := "Contact";
                           PageDetail.meta_description := "" |};
     PageDetail.coverImage := None;
     PageDetail.slug := "contact";
     PageDetail.categories :=
       [ {| Category.name := "Latest"; Category.slug := "news" |};
         {| Category.name := "Journal"; Category.slug := "Blog" |};
         {| Category.name := "News"; Category.slug := "news" |} ];
     PageDetail.content := [];
     PageDetail.createdAt := "2024-02-01T00:00:00Z";
     PageDetail.updatedAt := "2024-02-01T00:00:00Z" |}.

(** A runtime whose lower-casing leaves every non-ASCII character
    alone. *)
Definition ascii_runtime : Js.CaseConversion :=
  {| Js.toLowerCase := Js.ascii_toLowerCase;
     Js.toLowerCase_ascii := fun s _ => eq_refl |}.

(** A two-level menu, as [getMenuById] would deliver it. *)
Definition sample_menu : Menu.t :=
  {| Menu.id := "main";
     Menu.name := "Main menu";
     Menu.items :=
       [ MenuItem.Build "Home" Js.undefined "home" "/" ["Primary"] [];
         MenuItem.Build "Docs" (Js.def "Read me") "book" "/docs" []
           [ MenuItem.Build "API" Js.undefined "code" "/docs/api"
                            ["Nested"] [] ] ] |}.

(* ================================================================== *)
(** * Part 5. Properties                                              *)
(* ================================================================== *)

Import Js Ng JustCmsService.

(** ** The runtime fragment *)

Lemma truthy_false_iff_missing (m : maybe string) :
  truthy m = false <-> missing m.
Proof.
  unfold missing; split.
  - destruct m as [ | | [ | c s]]; simpl; intro E; auto; discriminate.
  - intros [-> | [-> | ->]]; reflexivity.
Qed.

Lemma truthy_def (s : string) : truthy (def s) = true <-> s <> "".
Proof.
  destruct s; simpl; split; intro H; congruence.
Qed.

(** [String(...)] on numbers of every shape: integers, the switch to
    exponent notation at [1e21] and below [1e-6], fractions, signs,
    zeros, infinities and [NaN]. *)
Example number_toString_examples :
  List.map number_toString
           [ of_Z 10; of_Z 0; Zero true; of_Z (-42); of_Z 1200;
             of_Z 100000000000000000000; of_Z 1000000000000000000000;
             Finite false 12345678901234568 21;
             Finite false 12345 22; Finite false 15 1; Finite true 12345 3;
             Finite false 1 0; Finite false 1 (-5); Finite false 1 (-6);
             Finite false 123 (-6); Finite false 5 (-323);
             Finite false 17976931348623157 309;
             Infinity false; Infinity true; NaN ]
  = [ "10"; "0"; "0"; "-42"; "1200";
      "100000000000000000000"; "1e+21";
      "123456789012345680000";
      "1.2345e+21"; "1.5"; "-123.45";
      "0.1"; "0.000001"; "1e-7";
      "1.23e-7"; "5e-324";
      "1.7976931348623157e+308";
      "Infinity"; "-Infinity"; "NaN" ].
Proof. vm_compute; reflexivity. Qed.

(** What counts as ASCII text: bytes below 128. *)
Example is_ascii_examples :
  List.map is_ascii
           [ ""; "az AZ 09 ~"; String (ascii_of_nat 127) "";
             String (ascii_of_nat 128) "";
             String (ascii_of_nat 195) (String (ascii_of_nat 137) "");
             String "a" (String (ascii_of_nat 255) "") ]
  = [true; true; true; false; false; false].
Proof. vm_compute; reflexivity. Qed.

(** The order of [Object.entries]: array indices first, ascending. *)
Example entries_example :
  List.map fst (entries [("b", null); ("2", null); ("a", null); ("10", null);
                         ("01", null); ("1", null); ("4294967295", null)])
  = ["1"; "2"; "10"; "b"; "a"; "01"; "4294967295"].
Proof. vm_compute; reflexivity. Qed.

Lemma includes_In (xs : list string) (x : string) :
  includes xs x = true <-> In x xs.
Proof.
  induction xs as [ | y rest IH]; simpl.
  - split; [discriminate | tauto].
  - destruct (String.eqb_spec y x) as [-> | Hne].
    + split; auto.
    + rewrite IH; split; [auto | intros [E | HIn]; [contradiction | exact HIn]].
Qed.

Lemma prefix_app (part rest : string) : String.prefix part (part ++ rest) = true.
Proof.
  induction part as [ | c part IH]; simpl.
  - destruct rest; reflexivity.
  - destruct (ascii_dec c c) as [_ | Hne]; [exact IH | contradiction].
Qed.

Lemma str_includes_prefix (s part : string) :
  String.prefix part s = true -> str_includes s part = true.
Proof. destruct s; simpl; intros ->; reflexivity. Qed.

Lemma append_empty_r (s : string) : s ++ "" = s.
Proof. induction s as [ | c s IH]; simpl; [ | rewrite IH]; reflexivity. Qed.

Lemma prefix_refl (part : string) : String.prefix part part = true.
Proof.
  induction part as [ | c part IH]; simpl; [reflexivity | ].
  destruct (ascii_dec c c) as [_ | Hne]; [exact IH | contradiction].
Qed.

(** An occurrence in [s] is still there after text is put in front. *)
Lemma str_includes_skip (before s part : string) :
  str_includes s part = true -> str_includes (before ++ s) part = true.
Proof.
  intro Hs; induction before as [ | c before IH]; [exact Hs | ].
  change (str_includes (String c (before ++ s)) part = true).
  cbn [str_includes]; rewrite IH.
  destruct (String.prefix part (String c (before ++ s))); reflexivity.
Qed.

Lemma get_param_In (p : HttpParams) (k v : string) :
  get_param p k = Some v -> In (k, v) p.
Proof.
  induction p as [ | [k' v'] rest IH]; simpl; [discriminate | ].
  destruct (String.eqb_spec k' k) as [-> | _].
  - intros [= ->]; left; reflexivity.
  - intro H; right; exact (IH H).
Qed.

(** ** One request per call, whatever the reply *)

Section Get.
Context {T : Type} (http : HttpClient T) (this : JustCmsService.t).
Variables (endpoint : maybe string) (queryParams : maybe object).

Lemma get_sent :
  sent (get http this endpoint queryParams)
  = [get_request this endpoint queryParams].
Proof.
  unfold get, pipe, catchError, http_get, get_request; simpl.
  destruct (http _); reflexivity.
Qed.

Lemma get_outcome_success (body : T) :
  http (get_request this endpoint queryParams) = inr body ->
  outcome (get http this endpoint queryParams) = Emit body.
Proof.
  unfold get, pipe, catchError, http_get, get_request; simpl.
  intros ->; reflexivity.
Qed.

Lemma get_outcome_failure (failure : HttpErrorResponse) :
  http (get_request this endpoint queryParams) = inl failure ->
  outcome (get http this endpoint queryParams)
  = Fail (new_Error (get_errorMsg failure)).
Proof.
  unfold get, pipe, catchError, http_get, get_request; simpl.
  intros ->; reflexivity.
Qed.

End Get.

(** ** What a successful construction leaves behind *)

Lemma constructor_Return (cfg : JustCmsConfig.t) (this : JustCmsService.t) :
  outcome (constructor cfg) = Return this ->
  this = {| BASE_URL := "https://api.justcms.co/public"; config := cfg |}
  /\ truthy (JustCmsConfig.apiToken cfg) = true
  /\ truthy (JustCmsConfig.projectId cfg) = true.
Proof.
  unfold constructor.
  destruct (truthy (JustCmsConfig.apiToken cfg)); simpl; [ | discriminate].
  destruct (truthy (JustCmsConfig.projectId cfg)); simpl; [ | discriminate].
  intros [= <-]; auto.
Qed.

(** C2.  Construction with an empty or absent [apiToken] throws, and so
    does construction with an empty or absent [projectId].  The token is
    checked first and reports "JustCMS API token is required"; with a
    token in place the project id check reports "JustCMS project ID is
    required".  The two messages differ, and in every failing case no
    request has been sent. *)
Theorem constructor_requires_token_and_project (cfg : JustCmsConfig.t) :
  (missing (JustCmsConfig.apiToken cfg) ->
     constructor cfg
     = {| sent := [];
          outcome := Throw (new_Error "JustCMS API token is required") |})
  /\ (missing (JustCmsConfig.projectId cfg) ->
      ~ missing (JustCmsConfig.apiToken cfg) ->
      constructor cfg
      = {| sent := [];
           outcome := Throw (new_Error "JustCMS project ID is required") |})
  /\ (missing (JustCmsConfig.projectId cfg) ->
      exists msg, constructor cfg
                  = {| sent := []; outcome := Throw (new_Error msg) |})
  /\ "JustCMS API token is required" <> "JustCMS project ID is required".
Proof.
  unfold constructor, throw.
  split; [ | split; [ | split]].
  - intro Htok; apply truthy_false_iff_missing in Htok; rewrite Htok; reflexivity.
  - intros Hpid Htok; apply truthy_false_iff_missing in Hpid.
    destruct (truthy (JustCmsConfig.apiToken cfg)) eqn:E.
    + rewrite Hpid; reflexivity.
    + apply truthy_false_iff_missing in E; contradiction.
  - intro Hpid; apply truthy_false_iff_missing in Hpid.
    destruct (truthy (JustCmsConfig.apiToken cfg)); simpl; eauto.
    rewrite Hpid; simpl; eauto.
  - discriminate.
Qed.

Lemma constructor_requires_token_and_project_witness :
  (missing (@undefined string)
   /\ constructor {| JustCmsConfig.apiToken := undefined;
                     JustCmsConfig.projectId := def "demo" |}
      = {| sent := [];
           outcome := Throw (new_Error "JustCMS API token is required") |})
  /\ (missing (def "") /\ ~ missing (def "secret")
      /\ constructor {| JustCmsConfig.apiToken := def "secret";
                        JustCmsConfig.projectId := def "" |}
         = {| sent := [];
              outcome := Throw (new_Error "JustCMS project ID is required") |}).
Proof.
  assert (Hempty : missing (def "")) by (right; right; reflexivity).
  assert (Hsecret : ~ missing (def "secret"))
    by (intros [E | [E | E]]; discriminate E).
  split.
  - split; [left; reflexivity | ].
    apply (proj1 (constructor_requires_token_and_project
                    {| JustCmsConfig.apiToken := undefined;
                       JustCmsConfig.projectId := def "demo" |})).
    left; reflexivity.
  - split; [exact Hempty | split; [exact Hsecret | ]].
    apply (proj1 (proj2 (constructor_requires_token_and_project
                           {| JustCmsConfig.apiToken := def "secret";
                              JustCmsConfig.projectId := def "" |})));
      assumption.
Defined.

(** ** Requests and replies of the four calls *)

Lemma getCategories_sent http this :
  sent (getCategories http this) = [get_request this undefined undefined].
Proof. unfold getCategories, pipe, map; simpl; apply get_sent. Qed.

Lemma getPages_sent http this params :
  sent (getPages http this params)
  = [get_request this (def "pages") (def (getPages_query params))].
Proof. apply get_sent. Qed.

Lemma getPageBySlug_sent http this slug version :
  sent (getPageBySlug http this slug version)
  = [get_request this (def ("pages/" ++ slug))
                 (def (getPageBySlug_query version))].
Proof. apply get_sent. Qed.

Lemma getMenuById_sent http this id :
  sent (getMenuById http this id)
  = [get_request this (def ("menus/" ++ id)) undefined].
Proof. apply get_sent. Qed.

(** C3.  Whenever the transport fails the request a call has sent, with
    status [status failure] and message [message failure], the call
    delivers one error whose message is exactly
    "JustCMS API error {status}: {message}", whatever the status; this
    holds for each of the four calls.  That message contains the decimal
    status and the transport's message; for status 404 and message
    "Not Found" it is "JustCMS API error 404: Not Found". *)
Theorem transport_failure_is_normalized
        (this : JustCmsService.t) (failure : HttpErrorResponse) :
  let msg := "JustCMS API error " ++ integer_toString (status failure)
               ++ ": " ++ Ng.message failure in
  (forall http,
      (forall req, In req (sent (getCategories http this)) ->
                   http req = inl failure) ->
      outcome (getCategories http this) = Fail (new_Error msg))
  /\ (forall http params,
         (forall req, In req (sent (getPages http this params)) ->
                      http req = inl failure) ->
         outcome (getPages http this params) = Fail (new_Error msg))
  /\ (forall http slug version,
         (forall req, In req (sent (getPageBySlug http this slug version)) ->
                      http req = inl failure) ->
         outcome (getPageBySlug http this slug version) = Fail (new_Error msg))
  /\ (forall http id,
         (forall req, In req (sent (getMenuById http this id)) ->
                      http req = inl failure) ->
         outcome (getMenuById http this id) = Fail (new_Error msg))
  /\ str_includes msg (integer_toString (status failure)) = true
  /\ str_includes msg (Ng.message failure) = true
  /\ get_errorMsg {| status := 404%Z; Ng.message := "Not Found" |}
     = "JustCMS API error 404: Not Found"
  /\ str_includes (get_errorMsg {| status := 404%Z; Ng.message := "Not Found" |})
                  "404" = true
  /\ str_includes (get_errorMsg {| status := 404%Z; Ng.message := "Not Found" |})
                  "Not Found" = true.
Proof.
  intro msg.
  assert (Hmsg : get_errorMsg failure = msg) by reflexivity.
  split; [ | split; [ | split; [ | split]]].
  - intros http Hfail.
    rewrite getCategories_sent in Hfail.
    unfold getCategories, pipe, map; simpl.
    rewrite (get_outcome_failure http this undefined undefined failure
                                 (Hfail _ (or_introl eq_refl))), Hmsg.
    reflexivity.
  - intros http params Hfail.
    rewrite getPages_sent in Hfail.
    unfold getPages; rewrite <- Hmsg.
    apply get_outcome_failure, Hfail; left; reflexivity.
  - intros http slug version Hfail.
    rewrite getPageBySlug_sent in Hfail.
    unfold getPageBySlug; rewrite <- Hmsg.
    apply get_outcome_failure, Hfail; left; reflexivity.
  - intros http id Hfail.
    rewrite getMenuById_sent in Hfail.
    unfold getMenuById; rewrite <- Hmsg.
    apply get_outcome_failure, Hfail; left; reflexivity.
  - split; [ | split; [ | split; [ | split]]]; try reflexivity.
    + subst msg; apply str_includes_skip, str_includes_prefix, prefix_app.
    + subst msg; do 3 apply str_includes_skip.
      apply str_includes_prefix, prefix_refl.
Qed.

Lemma transport_failure_is_normalized_witness :
  (forall req,
      In req (sent (getMenuById (fun _ => inl not_found) demo_service "main")) ->
      (fun _ : Request => @inl _ Menu.t not_found) req = inl not_found)
  /\ outcome (getMenuById (fun _ => inl not_found) demo_service "main")
     = Fail (new_Error "JustCMS API error 404: Not Found").
Proof.
  split; [intros req _; reflexivity | ].
  apply (proj1 (proj2 (proj2 (proj2
           (transport_failure_is_normalized demo_service not_found))))
           (fun _ => inl not_found) "main").
  intros req _; reflexivity.
Defined.

(** The request of a client that came out of the constructor: the fixed
    base, the project id, the bearer token. *)
Lemma get_request_constructed token pid this endpoint queryParams :
  outcome (constructor {| JustCmsConfig.apiToken := def token;
                          JustCmsConfig.projectId := def pid |})
  = Return this ->
  get_request this endpoint queryParams
  = {| method := GET;
       url := "https://api.justcms.co/public/" ++ pid
                ++ match endpoint with
                   | def (String c rest) => "/" ++ String c rest
                   | _ => ""
                   end;
       headers := [("Authorization", "Bearer " ++ token)];
       params := get_params queryParams |}.
Proof.
  intro Hbuilt; apply constructor_Return in Hbuilt as (-> & _ & _).
  unfold get_request, get_url, get_headers; simpl.
  destruct endpoint as [ | | [ | c rest]]; reflexivity.
Qed.

(** C4.  On a client that came out of the constructor, [getCategories()]
    sends exactly one request: a GET to [{base}/{projectId}], with no
    further path segment and no query parameter, carrying the header
    [Authorization: Bearer {apiToken}].  When the transport answers that
    request with a body, the call emits the body's [categories] list
    itself, elements and order untouched. *)
Theorem getCategories_request_and_result
        (token pid : string) (this : JustCmsService.t) :
  outcome (constructor {| JustCmsConfig.apiToken := def token;
                          JustCmsConfig.projectId := def pid |})
  = Return this ->
  forall http : HttpClient CategoriesResponse.t,
    let req := {| method := GET;
                  url := "https://api.justcms.co/public/" ++ pid;
                  headers := [("Authorization", "Bearer " ++ token)];
                  params := [] |} in
    sent (getCategories http this) = [req]
    /\ forall body,
        http req = inr body ->
        outcome (getCategories http this)
        = Emit (CategoriesResponse.categories body).
Proof.
  intros Hbuilt http req.
  assert (Hreq : get_request this undefined undefined = req).
  { rewrite (get_request_constructed token pid this _ _ Hbuilt); simpl.
    rewrite append_empty_r; reflexivity. }
  split.
  - rewrite getCategories_sent, Hreq; reflexivity.
  - intros body Hbody.
    unfold getCategories, pipe, map; simpl.
    rewrite (get_outcome_success http this undefined undefined body);
      [reflexivity | rewrite Hreq; exact Hbody].
Qed.

Lemma getCategories_request_and_result_witness :
  outcome (constructor demo_config) = Return demo_service
  /\ (fun _ : Request => @inr HttpErrorResponse _ demo_categories)
       {| method := GET;
          url := "https://api.justcms.co/public/demo";
          headers := [("Authorization", "Bearer secret")];
          params := [] |}
     = inr demo_categories
  /\ sent (getCategories (fun _ => inr demo_categories) demo_service)
     = [ {| method := GET;
            url := "https://api.justcms.co/public/demo";
            headers := [("Authorization", "Bearer secret")];
            params := [] |} ]
  /\ outcome (getCategories (fun _ => inr demo_categories) demo_service)
     = Emit [ {| Category.name := "News"; Category.slug := "news" |};
              {| Category.name := "Blog"; Category.slug := "blog" |} ].
Proof.
  split; [reflexivity | split; [reflexivity | ]].
  destruct (getCategories_request_and_result
              "secret" "demo" demo_service eq_refl
              (fun _ => inr demo_categories)) as [Hsent Hresult].
  split; [exact Hsent | exact (Hresult demo_categories eq_refl)].
Defined.

(** C5.  On a client that came out of the constructor,
    [getPageBySlug(slug, version)] sends exactly one request, a GET to
    [{base}/{projectId}/pages/{slug}] with the bearer header.  Called
    without a version ([undefined]) the request has no query parameter
    at all, hence no [v].  Called with a version, that is a non-empty
    string such as ['draft'], the request has the single parameter [v]
    set to that string.  ([if (version)] takes the empty string for no
    version.) *)
Theorem getPageBySlug_request
        (token pid : string) (this : JustCmsService.t) :
  outcome (constructor {| JustCmsConfig.apiToken := def token;
                          JustCmsConfig.projectId := def pid |})
  = Return this ->
  forall (http : HttpClient PageDetail.t) (slug : string),
    let req query :=
      {| method := GET;
         url := "https://api.justcms.co/public/" ++ pid ++ "/pages/" ++ slug;
         headers := [("Authorization", "Bearer " ++ token)];
         params := query |} in
    sent (getPageBySlug http this slug undefined) = [req []]
    /\ has (params (req [])) "v" = false
    /\ (forall version, version <> "" ->
          sent (getPageBySlug http this slug (def version))
          = [req [("v", version)]]
          /\ get_param (params (req [("v", version)])) "v" = Some version)
    /\ sent (getPageBySlug http this slug (def "draft"))
       = [req [("v", "draft")]].
Proof.
  intros Hbuilt http slug req.
  assert (Hreq : forall version,
             sent (getPageBySlug http this slug version)
             = [req (get_params (def (getPageBySlug_query version)))]).
  { intro version.
    rewrite getPageBySlug_sent, (get_request_constructed token pid this _ _ Hbuilt).
    reflexivity. }
  split; [apply Hreq | ].
  split; [reflexivity | ].
  split.
  - intros version Hne; split; [ | reflexivity].
    rewrite Hreq; destruct version as [ | c rest]; [contradiction | reflexivity].
  - apply Hreq.
Qed.

Lemma getPageBySlug_request_witness :
  outcome (constructor demo_config) = Return demo_service
  /\ "draft" <> ""
  /\ sent (getPageBySlug (fun _ => inl not_found) demo_service
                         "about-us" (def "draft"))
     = [ {| method := GET;
            url := "https://api.justcms.co/public/demo/pages/about-us";
            headers := [("Authorization", "Bearer secret")];
            params := [("v", "draft")] |} ].
Proof.
  split; [reflexivity | split; [discriminate | ]].
  destruct (getPageBySlug_request
              "secret" "demo" demo_service eq_refl
              (fun _ => inl not_found) "about-us")
    as (_ & _ & Hversion & _).
  apply (Hversion "draft"); discriminate.
Defined.

(** ** The query parameters of [getPages] *)

(** The parameters depend on the argument only through the three values
    the guards read. *)
Lemma getPages_params_by_cases (params : maybe PagesParams) :
  get_params (def (getPages_query params))
  = (match filter_slug params with
     | def (String c rest) => [("filter.category.slug", String c rest)]
     | _ => []
     end
       ++ match optchain params start with
          | def n => [("start", number_toString n)]
          | _ => []
          end
       ++ match optchain params offset with
          | def n => [("offset", number_toString n)]
          | _ => []
          end)%list.
Proof.
  unfold getPages_query.
  destruct (filter_slug params) as [ | | [ | c rest]];
    destruct (optchain params start) as [ | | n];
    destruct (optchain params offset) as [ | | m];
    reflexivity.
Qed.

Lemma has_In (p : HttpParams) (k : string) :
  has p k = true -> exists v, In (k, v) p.
Proof.
  unfold has; destruct (get_param p k) as [v | ] eqn:E; [ | discriminate].
  intros _; exists v; apply get_param_In; exact E.
Qed.

(** C1.  On a client that came out of the constructor, [getPages(params)]
    sends exactly one request, a GET to [{base}/{projectId}/pages] with
    the bearer header.  Its query carries [filter.category.slug] only
    when [params?.filters?.category?.slug] is a string (neither
    [undefined] nor [null]), and then with that very string; precisely,
    when it is a non-empty string.  It carries [start] exactly when
    [params?.start] is a number (neither [undefined] nor [null]), as
    [String(...)] prints that number, whatever number it is, and
    likewise [offset].  No other parameter is ever present.  A call with
    no argument has no parameter at all, and
    [getPages({filters: {category: {slug: 'blog'}}, start: 10,
    offset: 5})] has exactly [filter.category.slug=blog], [start=10],
    [offset=5], in that order; [{start: 1e21, offset: 0.25}] gives
    [start=1e+21], [offset=0.25], and [{start: NaN, offset: -Infinity}]
    gives [start=NaN], [offset=-Infinity]. *)
Theorem getPages_query_parameters
        (token pid : string) (this : JustCmsService.t) :
  outcome (constructor {| JustCmsConfig.apiToken := def token;
                          JustCmsConfig.projectId := def pid |})
  = Return this ->
  forall http : HttpClient PagesResponse.t,
    let req query :=
      {| method := GET;
         url := "https://api.justcms.co/public/" ++ pid ++ "/pages";
         headers := [("Authorization", "Bearer " ++ token)];
         params := query |} in
    (forall params, exists query,
        sent (getPages http this params) = [req query]
        /\ (forall v, get_param query "filter.category.slug" = Some v <->
                      filter_slug params = def v /\ v <> "")
        /\ (forall v, get_param query "start" = Some v <->
                      exists n, optchain params start = def n
                                /\ v = number_toString n)
        /\ (forall v, get_param query "offset" = Some v <->
                      exists n, optchain params offset = def n
                                /\ v = number_toString n)
        /\ (forall k, has query k = true ->
                      k = "filter.category.slug" \/ k = "start" \/ k = "offset"))
    /\ sent (getPages http this undefined) = [req []]
    /\ sent (getPages http this (def blog_page_params))
       = [req [("filter.category.slug", "blog"); ("start", "10");
               ("offset", "5")]]
    /\ sent (getPages http this
                      (def (unfiltered_page_params
                              (def (Finite false 1 22))
                              (def (Finite false 25 0)))))
       = [req [("start", "1e+21"); ("offset", "0.25")]]
    /\ sent (getPages http this
                      (def (unfiltered_page_params
                              (def NaN) (def (Infinity true)))))
       = [req [("start", "NaN"); ("offset", "-Infinity")]].
Proof.
  intros Hbuilt http req.
  assert (Hreq : forall params,
             sent (getPages http this params)
             = [req (get_params (def (getPages_query params)))]).
  { intro params.
    rewrite getPages_sent, (get_request_constructed token pid this _ _ Hbuilt).
    reflexivity. }
  split; [ | repeat split; apply Hreq].
  intro params; eexists; split; [apply Hreq | ].
  rewrite getPages_params_by_cases.
  destruct (filter_slug params) as [ | | [ | c rest]];
    destruct (optchain params start) as [ | | n];
    destruct (optchain params offset) as [ | | m];
    (split; [ | split; [ | split]]);
    try (intro v; simpl; split;
         [ intros [= <-]; first [split; [reflexivity | discriminate] | eauto]
         | first [ intros [[= <-] _]; reflexivity
                 | intros (n' & [= <-] & ->); reflexivity ] ]);
    try (intro v; simpl; split;
         [ discriminate
         | first [ intros [E _]; discriminate E
                 | intros [[= <-] Hne]; contradiction
                 | intros (n' & E & _); discriminate E ] ]);
    try (intros k Hk; apply has_In in Hk as (v & HIn); simpl in HIn;
         repeat (destruct HIn as [[= <- _] | HIn]; [tauto | ]);
         contradiction).
Qed.

Lemma getPages_query_parameters_witness :
  outcome (constructor demo_config) = Return demo_service
  /\ sent (getPages (fun _ => inl not_found) demo_service
                    (def blog_page_params))
     = [ {| method := GET;
            url := "https://api.justcms.co/public/demo/pages";
            headers := [("Authorization", "Bearer secret")];
            params := [("filter.category.slug", "blog"); ("start", "10");
                       ("offset", "5")] |} ].
Proof.
  split; [reflexivity | ].
  destruct (getPages_query_parameters
              "secret" "demo" demo_service eq_refl (fun _ => inl not_found))
    as (_ & _ & Hblog & _).
  exact Hblog.
Defined.

(** C10.  The empty string counts as absent.  [getPages] called with
    [filters.category.slug] equal to [''] does exactly what the same call
    without [filters] does, whatever [start] and [offset] are, and with
    neither of them it does what a call without argument does; the one
    request it sends has no [filter.category.slug] parameter.
    [getPageBySlug(slug, '')] does exactly what [getPageBySlug(slug)]
    does; the one request it sends has no [v] parameter. *)
Theorem empty_string_counts_as_absent (this : JustCmsService.t) :
  (forall http start offset,
      getPages http this (def (filtered_page_params "" start offset))
      = getPages http this (def (unfiltered_page_params start offset)))
  /\ (forall http,
         getPages http this (def (filtered_page_params "" undefined undefined))
         = getPages http this undefined)
  /\ (forall http start offset,
         List.map (fun req => has (params req) "filter.category.slug")
                  (sent (getPages http this
                                  (def (filtered_page_params "" start offset))))
         = [false])
  /\ (forall http slug,
         getPageBySlug http this slug (def "")
         = getPageBySlug http this slug undefined)
  /\ (forall http slug,
         List.map (fun req => has (params req) "v")
                  (sent (getPageBySlug http this slug (def "")))
         = [false]).
Proof.
  split; [ | split; [ | split; [ | split]]].
  - intros http start offset; reflexivity.
  - intros http; reflexivity.
  - intros http start offset.
    rewrite getPages_sent; unfold get_request; cbn [List.map params].
    rewrite getPages_params_by_cases.
    destruct start as [ | | n]; destruct offset as [ | | m]; reflexivity.
  - intros http slug; reflexivity.
  - intros http slug.
    rewrite getPageBySlug_sent; reflexivity.
Qed.

(** ** The helpers *)

(** C6.  For a block with a styles list and any style,
    [isBlockHasStyle(block, style)] returns a boolean, without throwing:
    it lower-cases the style and every element of [block.styles] and
    answers [true] exactly when the lower-cased style is among the
    lower-cased elements, that is, when some element of [block.styles]
    and the style have the same lower-case form.  This holds for the
    lower-casing of any runtime.  (Only a block whose [styles] member is
    missing makes it throw.)  On [{styles: ['Highlight', 'Bold']}] and
    ['highlight'] the answer is [true], on [{styles: ['Bold']}] and
    ['highlight'] it is [false]; all twenty-six letters are matched
    across case, and characters that are not letters match only
    themselves. *)
Theorem isBlockHasStyle_case_insensitive_membership :
  (forall (R : CaseConversion) (A : Type) (HA : HasStyles A) (block : A)
          (listed : list string) (style : string),
      styles block = def listed ->
      exists answer : bool,
        isBlockHasStyle block style = Value answer
        /\ (answer = true <->
            In (toLowerCase style) (List.map toLowerCase listed))
        /\ (answer = true <->
            exists s, In s listed /\ toLowerCase s = toLowerCase style))
  /\ (forall (R : CaseConversion) (A : Type) (HA : HasStyles A) (block : A)
             (style : string),
         styles block = undefined \/ styles block = null ->
         isBlockHasStyle block style = TypeError)
  /\ (forall R : CaseConversion,
         isBlockHasStyle {| styled_styles := def ["Highlight"; "Bold"] |}
                         "highlight"
         = Value true
         /\ isBlockHasStyle {| styled_styles := def ["Bold"] |} "highlight"
            = Value false
         /\ isBlockHasStyle
              {| styled_styles := def ["ABCDEFGHIJKLMNOPQRSTUVWXYZ"] |}
              "abcdefghijklmnopqrstuvwxyz"
            = Value true
         /\ isBlockHasStyle
              {| styled_styles := def ["the-quick_brown.fox 0123456789"] |}
              "THE-QUICK_BROWN.FOX 0123456789"
            = Value true
         /\ isBlockHasStyle {| styled_styles := def ["@"; "["; "0"] |} "`"
            = Value false
         /\ isBlockHasStyle {| styled_styles := def ["["; "@"; "Z"] |} "{"
            = Value false).
Proof.
  split; [ | split].
  - intros R A HA block listed style Hstyles.
    unfold isBlockHasStyle; rewrite Hstyles.
    eexists; split; [reflexivity | split].
    + apply includes_In.
    + rewrite includes_In, in_map_iff.
      split; intros (s & H1 & H2); exists s; tauto.
  - intros R A HA block style [Hstyles | Hstyles];
      unfold isBlockHasStyle; rewrite Hstyles; reflexivity.
  - intro R; unfold isBlockHasStyle; cbn [styles styled_HasStyles styled_styles List.map].
    rewrite !toLowerCase_ascii by reflexivity.
    repeat split.
Qed.

Lemma isBlockHasStyle_case_insensitive_membership_witness :
  @styles styled _ {| styled_styles := def ["Highlight"; "Bold"] |}
  = def ["Highlight"; "Bold"]
  /\ exists answer : bool,
      @isBlockHasStyle ascii_runtime styled _
                       {| styled_styles := def ["Highlight"; "Bold"] |} "BOLD"
      = Value answer
      /\ (answer = true <->
          In (@toLowerCase ascii_runtime "BOLD")
             (List.map (@toLowerCase ascii_runtime) ["Highlight"; "Bold"]))
      /\ (answer = true <->
          exists s, In s ["Highlight"; "Bold"]
                    /\ @toLowerCase ascii_runtime s
                       = @toLowerCase ascii_runtime "BOLD").
Proof.
  split; [reflexivity | ].
  apply (proj1 isBlockHasStyle_case_insensitive_membership
               ascii_runtime styled _
               {| styled_styles := def ["Highlight"; "Bold"] |}
               ["Highlight"; "Bold"] "BOLD").
  reflexivity.
Defined.

(** C7.  [getLargeImageVariant(image)] is the element at index 1 of
    [image.variants] when there are two or more variants and [undefined]
    when there are fewer.  It looks at positions only: applying any
    rewriting of the variants (of their widths and heights, say) before
    the call or after it gives the same result. *)
Theorem getLargeImageVariant_second_or_undefined (image : Image.t) :
  (2 <= List.length (Image.variants image) ->
   exists v0 v1 rest,
     Image.variants image = v0 :: v1 :: rest
     /\ getLargeImageVariant image = def v1)
  /\ (List.length (Image.variants image) < 2 ->
      getLargeImageVariant image = undefined)
  /\ (forall f : ImageVariant.t -> ImageVariant.t,
         getLargeImageVariant
           {| Image.alt := Image.alt image;
              Image.variants := List.map f (Image.variants image) |}
         = maybe_map f (getLargeImageVariant image)).
Proof.
  unfold getLargeImageVariant, index.
  destruct image as [alt [ | v0 [ | v1 rest]]]; simpl;
    (split; [ | split]); intros; try reflexivity; try lia; eauto.
Qed.

Lemma getLargeImageVariant_second_or_undefined_witness :
  2 <= List.length (Image.variants cover_image)
  /\ getLargeImageVariant cover_image = def second_variant.
Proof.
  split; [simpl; lia | ].
  destruct (proj1 (getLargeImageVariant_second_or_undefined cover_image)
                  ltac:(simpl; lia))
    as (v0 & v1 & rest & Hvariants & Hresult).
  injection Hvariants as _ <- _.
  exact Hresult.
Defined.

(** C8.  [hasCategory(page, categorySlug)] answers [true] if and only if
    some element of [page.categories] has a [slug] equal to
    [categorySlug], character for character: a page filed under "Blog"
    has category "Blog" and not "blog". *)
Theorem hasCategory_exact_slug_match :
  (forall (page : PageDetail.t) (categorySlug : string),
      hasCategory page categorySlug = true <->
      exists category,
        In category (PageDetail.categories page)
        /\ Category.slug category = categorySlug)
  /\ hasCategory sample_page "Blog" = true
  /\ hasCategory sample_page "blog" = false
  /\ hasCategory sample_page "news" = true.
Proof.
  split; [ | repeat split].
  intros page categorySlug; unfold hasCategory.
  rewrite includes_In, in_map_iff.
  split; intros (category & H1 & H2); exists category; tauto.
Qed.

(** C9.  [getFirstImage(block)] is the first element of [block.images]
    when that array is present and not empty, and [undefined] when it is
    empty or when [block.images] is missing ([undefined] or [null]). *)
Theorem getFirstImage_first_or_undefined
        (A : Type) (HA : HasImages A) (block : A) :
  (forall first rest,
      images block = def (first :: rest) -> getFirstImage block = def first)
  /\ (images block = def [] -> getFirstImage block = undefined)
  /\ (images block = undefined \/ images block = null ->
      getFirstImage block = undefined).
Proof.
  unfold getFirstImage.
  split; [ | split].
  - intros first rest ->; reflexivity.
  - intros ->; reflexivity.
  - intros [-> | ->]; reflexivity.
Qed.

Lemma getFirstImage_first_or_undefined_witness :
  (images {| ImageBlock.styles := []; ImageBlock.images := [cover_image] |}
   = def [cover_image]
   /\ getFirstImage {| ImageBlock.styles := [];
                       ImageBlock.images := [cover_image] |}
      = def cover_image)
  /\ (images {| pictured_images := def [] |} = def []
      /\ getFirstImage {| pictured_images := def [] |} = undefined)
  /\ ((images {| pictured_images := undefined |} = undefined
       \/ images {| pictured_images := undefined |} = null)
      /\ getFirstImage {| pictured_images := undefined |} = undefined).
Proof.
  split; [ | split].
  - split; [reflexivity | ].
    apply (proj1 (getFirstImage_first_or_undefined
                    ImageBlock.t _
                    {| ImageBlock.styles := [];
                       ImageBlock.images := [cover_image] |})
                 cover_image []).
    reflexivity.
  - split; [reflexivity | ].
    apply (proj1 (proj2 (getFirstImage_first_or_undefined
                           pictured _ {| pictured_images := def [] |}))).
    reflexivity.
  - split; [left; reflexivity | ].
    apply (proj2 (proj2 (getFirstImage_first_or_undefined
                           pictured _ {| pictured_images := undefined |}))).
    left; reflexivity.
Defined.

(* ================================================================== *)
(** * Part 6. Further properties of the service                       *)
(* ================================================================== *)

(** ** Strings *)

Lemma append_assoc (a b c : string) : (a ++ b) ++ c = a ++ b ++ c.
Proof. induction a as [ | x a IH]; simpl; [ | rewrite IH]; reflexivity. Qed.

Lemma append_inv_head (a x y : string) : a ++ x = a ++ y -> x = y.
Proof.
  induction a as [ | c a IH]; simpl; intro E; [exact E | ].
  injection E as E; exact (IH E).
Qed.

(** ** [get] reads its query object only through the parameters it
       keeps *)

Lemma get_ext {T} (http : HttpClient T) this endpoint q q' :
  get_params q = get_params q' ->
  get http this endpoint q = get http this endpoint q'.
Proof. unfold get; intros ->; reflexivity. Qed.

(** ** Construction *)

(** X1.  The constructor returns a client exactly when both [apiToken]
    and [projectId] are non-empty strings.  The client it returns holds
    the configuration it was given and the fixed base URL, and building
    it sends nothing. *)
Theorem constructor_succeeds_iff_configured (cfg : JustCmsConfig.t) :
  ((exists this, outcome (constructor cfg) = Return this) <->
   (exists token pid,
       cfg = {| JustCmsConfig.apiToken := def token;
                JustCmsConfig.projectId := def pid |}
       /\ token <> "" /\ pid <> ""))
  /\ (forall this,
         outcome (constructor cfg) = Return this ->
         config this = cfg
         /\ BASE_URL this = "https://api.justcms.co/public"
         /\ sent (constructor cfg) = []).
Proof.
  split.
  - split.
    + intros (this & Hbuilt).
      apply constructor_Return in Hbuilt as (_ & Htok & Hpid).
      destruct cfg as [[ | | token] [ | | pid]]; simpl in *; try discriminate.
      exists token, pid; repeat split; intros ->; discriminate.
    + intros (token & pid & -> & Htok & Hpid).
      apply truthy_def in Htok, Hpid.
      unfold constructor; simpl in *; rewrite Htok, Hpid; simpl; eauto.
  - intros this Hbuilt.
    pose proof (constructor_Return cfg this Hbuilt) as (-> & Htok & Hpid).
    unfold constructor; rewrite Htok, Hpid; simpl; auto.
Qed.

Lemma constructor_succeeds_iff_configured_witness :
  outcome (constructor demo_config) = Return demo_service
  /\ config demo_service = demo_config
  /\ BASE_URL demo_service = "https://api.justcms.co/public"
  /\ sent (constructor demo_config) = [].
Proof.
  split; [reflexivity | ].
  exact (proj2 (constructor_succeeds_iff_configured demo_config)
               demo_service eq_refl).
Defined.

(** ** One request per call *)

(** X2.  Each of the four calls sends exactly one request, and which
    request it sends does not depend on how the transport answers: a
    failure is not retried and a success triggers nothing further. *)
Theorem calls_send_one_request_whatever_the_reply (this : JustCmsService.t) :
  (forall http http',
      sent (getCategories http this) = sent (getCategories http' this)
      /\ List.length (sent (getCategories http this)) = 1)
  /\ (forall http http' params,
         sent (getPages http this params) = sent (getPages http' this params)
         /\ List.length (sent (getPages http this params)) = 1)
  /\ (forall http http' slug version,
         sent (getPageBySlug http this slug version)
         = sent (getPageBySlug http' this slug version)
         /\ List.length (sent (getPageBySlug http this slug version)) = 1)
  /\ (forall http http' id,
         sent (getMenuById http this id) = sent (getMenuById http' this id)
         /\ List.length (sent (getMenuById http this id)) = 1).
Proof.
  split; [ | split; [ | split]]; intros.
  - rewrite !getCategories_sent; split; reflexivity.
  - rewrite !getPages_sent; split; reflexivity.
  - rewrite !getPageBySlug_sent; split; reflexivity.
  - rewrite !getMenuById_sent; split; reflexivity.
Qed.

(** X3.  On a client that came out of the constructor, every request of
    every call is a GET, carries the single header
    [Authorization: Bearer {apiToken}], and addresses a URL that begins
    with [{base}/{projectId}]. *)
Theorem every_request_is_an_authorized_get
        (token pid : string) (this : JustCmsService.t) :
  outcome (constructor {| JustCmsConfig.apiToken := def token;
                          JustCmsConfig.projectId := def pid |})
  = Return this ->
  forall req,
    (exists http, In req (sent (getCategories http this)))
    \/ (exists http params, In req (sent (getPages http this params)))
    \/ (exists http slug version,
           In req (sent (getPageBySlug http this slug version)))
    \/ (exists http id, In req (sent (getMenuById http this id))) ->
    method req = GET
    /\ headers req = [("Authorization", "Bearer " ++ token)]
    /\ String.prefix ("https://api.justcms.co/public/" ++ pid) (url req) = true.
Proof.
  intros Hbuilt req Hsent.
  assert (Hshape : exists endpoint queryParams,
             req = get_request this endpoint queryParams).
  { destruct Hsent as [(http & HIn) | [(http & params & HIn)
                      | [(http & slug & version & HIn) | (http & id & HIn)]]].
    - rewrite getCategories_sent in HIn; destruct HIn as [<- | []]; eauto.
    - rewrite getPages_sent in HIn; destruct HIn as [<- | []]; eauto.
    - rewrite getPageBySlug_sent in HIn; destruct HIn as [<- | []]; eauto.
    - rewrite getMenuById_sent in HIn; destruct HIn as [<- | []]; eauto. }
  destruct Hshape as (endpoint & queryParams & ->).
  rewrite (get_request_constructed token pid this _ _ Hbuilt).
  cbn [method headers url].
  split; [reflexivity | split; [reflexivity | ]].
  rewrite <- append_assoc; apply prefix_app.
Qed.

Lemma every_request_is_an_authorized_get_witness :
  outcome (constructor demo_config) = Return demo_service
  /\ ((exists http : HttpClient CategoriesResponse.t,
          In (get_request demo_service undefined undefined)
             (sent (getCategories http demo_service)))
      \/ (exists (http : HttpClient PagesResponse.t) params,
             In (get_request demo_service undefined undefined)
                (sent (getPages http demo_service params)))
      \/ (exists (http : HttpClient PageDetail.t) slug version,
             In (get_request demo_service undefined undefined)
                (sent (getPageBySlug http demo_service slug version)))
      \/ (exists (http : HttpClient Menu.t) id,
             In (get_request demo_service undefined undefined)
                (sent (getMenuById http demo_service id))))
  /\ headers (get_request demo_service undefined undefined)
     = [("Authorization", "Bearer secret")].
Proof.
  assert (Hsent : exists http : HttpClient CategoriesResponse.t,
             In (get_request demo_service undefined undefined)
                (sent (getCategories http demo_service))).
  { exists (fun _ => inr demo_categories); left; reflexivity. }
  split; [reflexivity | split; [left; exact Hsent | ]].
  apply (every_request_is_an_authorized_get
           "secret" "demo" demo_service eq_refl
           (get_request demo_service undefined undefined)
           (or_introl Hsent)).
Defined.

(** ** Menus and successful replies *)

(** X4.  On a client that came out of the constructor, [getMenuById(id)]
    sends one GET to [{base}/{projectId}/menus/{id}] with the bearer
    header and no query parameter; when the transport answers that
    request with a menu, the call emits that menu as it is. *)
Theorem getMenuById_request_and_result
        (token pid : string) (this : JustCmsService.t) :
  outcome (constructor {| JustCmsConfig.apiToken := def token;
                          JustCmsConfig.projectId := def pid |})
  = Return this ->
  forall (http : HttpClient Menu.t) (id : string),
    let req := {| method := GET;
                  url := "https://api.justcms.co/public/" ++ pid
                           ++ "/menus/" ++ id;
                  headers := [("Authorization", "Bearer " ++ token)];
                  params := [] |} in
    sent (getMenuById http this id) = [req]
    /\ forall menu,
        http req = inr menu -> outcome (getMenuById http this id) = Emit menu.
Proof.
  intros Hbuilt http id req.
  assert (Hreq : get_request this (def ("menus/" ++ id)) undefined = req)
    by (rewrite (get_request_constructed token pid this _ _ Hbuilt);
        reflexivity).
  split.
  - rewrite getMenuById_sent, Hreq; reflexivity.
  - intros menu Hmenu; unfold getMenuById.
    apply get_outcome_success; rewrite Hreq; exact Hmenu.
Qed.

Lemma getMenuById_request_and_result_witness :
  outcome (constructor demo_config) = Return demo_service
  /\ (fun _ : Request => @inr HttpErrorResponse _ sample_menu)
       {| method := GET;
          url := "https://api.justcms.co/public/demo/menus/main";
          headers := [("Authorization", "Bearer secret")];
          params := [] |}
     = inr sample_menu
  /\ sent (getMenuById (fun _ => inr sample_menu) demo_service "main")
     = [ {| method := GET;
            url := "https://api.justcms.co/public/demo/menus/main";
            headers := [("Authorization", "Bearer secret")];
            params := [] |} ]
  /\ outcome (getMenuById (fun _ => inr sample_menu) demo_service "main")
     = Emit sample_menu.
Proof.
  split; [reflexivity | split; [reflexivity | ]].
  destruct (getMenuById_request_and_result
              "secret" "demo" demo_service eq_refl
              (fun _ => inr sample_menu) "main") as [Hsent Hresult].
  split; [exact Hsent | exact (Hresult sample_menu eq_refl)].
Defined.

(** X5.  When the transport answers the request of [getPages] or of
    [getPageBySlug] with a body, the call emits exactly that body:
    nothing is unwrapped, filtered or reordered, and the error handler
    stays out of the way. *)
Theorem pages_replies_pass_through (this : JustCmsService.t) :
  (forall http params (body : PagesResponse.t),
      (forall req, In req (sent (getPages http this params)) ->
                   http req = inr body) ->
      outcome (getPages http this params) = Emit body)
  /\ (forall http slug version (body : PageDetail.t),
         (forall req, In req (sent (getPageBySlug http this slug version)) ->
                      http req = inr body) ->
         outcome (getPageBySlug http this slug version) = Emit body).
Proof.
  split.
  - intros http params body Hok.
    rewrite getPages_sent in Hok.
    apply get_outcome_success, Hok; left; reflexivity.
  - intros http slug version body Hok.
    rewrite getPageBySlug_sent in Hok.
    apply get_outcome_success, Hok; left; reflexivity.
Qed.

Lemma pages_replies_pass_through_witness :
  (forall req,
      In req (sent (getPageBySlug (fun _ => inr sample_page) demo_service
                                  "about-us" undefined)) ->
      (fun _ : Request => @inr HttpErrorResponse _ sample_page) req
      = inr sample_page)
  /\ outcome (getPageBySlug (fun _ => inr sample_page) demo_service
                            "about-us" undefined)
     = Emit sample_page.
Proof.
  split; [intros req _; reflexivity | ].
  apply (proj2 (pages_replies_pass_through demo_service)
               (fun _ => inr sample_page) "about-us" undefined sample_page).
  intros req _; reflexivity.
Defined.

(** ** The query object of [get] *)

Lemma set_fresh (p : HttpParams) (k v : string) :
  ~ In k (List.map fst p) -> set p k v = (p ++ [(k, v)])%list.
Proof.
  induction p as [ | [k' v'] rest IH]; simpl; intro Hfresh; [reflexivity | ].
  destruct (String.eqb_spec k' k) as [-> | _]; [tauto | ].
  rewrite IH; [reflexivity | tauto].
Qed.

Lemma fold_add_entry (q : object) (acc : HttpParams) :
  NoDup (List.map fst acc ++ List.map fst q) ->
  fold_left add_entry q acc
  = (acc ++ List.map (fun e => (fst e, String_ (snd e)))
                     (List.filter (fun e => not_nullish (snd e)) q))%list.
Proof.
  revert acc; induction q as [ | [k v] rest IH]; intros acc Hkeys; simpl.
  - rewrite app_nil_r; reflexivity.
  - simpl in Hkeys.
    pose proof (NoDup_remove_1 _ _ _ Hkeys) as Hrest.
    pose proof (NoDup_remove_2 _ _ _ Hkeys) as Hfresh.
    destruct (not_nullish v) eqn:Hv; simpl.
    + rewrite set_fresh by (intro HIn; apply Hfresh, in_or_app; left; exact HIn).
      rewrite IH.
      * rewrite <- app_assoc; reflexivity.
      * rewrite map_app, <- app_assoc; exact Hkeys.
    + apply IH; exact Hrest.
Qed.

Lemma insert_by_index_perm entry sorted :
  Permutation (insert_by_index entry sorted) (entry :: sorted).
Proof.
  induction sorted as [ | e rest IH]; simpl; [reflexivity | ].
  destruct (N.leb (index_of entry) (index_of e)); [reflexivity | ].
  rewrite IH; apply perm_swap.
Qed.

Lemma sort_by_index_perm es : Permutation (sort_by_index es) es.
Proof.
  induction es as [ | e rest IH]; simpl; [reflexivity | ].
  rewrite insert_by_index_perm, IH; reflexivity.
Qed.

(** [Object.entries] lists every entry of the object, once. *)
Lemma entries_perm (o : object) : Permutation (entries o) o.
Proof.
  unfold entries; rewrite sort_by_index_perm.
  induction o as [ | e rest IH]; simpl; [reflexivity | ].
  destruct (is_array_index e); simpl.
  - rewrite IH; reflexivity.
  - rewrite <- Permutation_middle, IH; reflexivity.
Qed.

(** Without array-index keys the order is the order of assignment. *)
Lemma entries_no_index (o : object) :
  forallb (fun e => negb (is_array_index e)) o = true -> entries o = o.
Proof.
  unfold entries; induction o as [ | e rest IH]; simpl; [reflexivity | ].
  destruct (is_array_index e); simpl; [discriminate | ].
  intro Hrest; specialize (IH Hrest).
  destruct (List.filter is_array_index rest) as [ | e' rest'] eqn:Hnone.
  - simpl in *; rewrite IH; reflexivity.
  - exfalso.
    assert (HIn : In e' (List.filter is_array_index rest))
      by (rewrite Hnone; left; reflexivity).
    apply filter_In in HIn as [HIn Hindex].
    rewrite forallb_forall in Hrest.
    specialize (Hrest e' HIn); rewrite Hindex in Hrest; discriminate.
Qed.

(** X6.  For a query object whose values are primitives ([undefined],
    [null], booleans, numbers, strings), the request of [get] carries
    one parameter for each entry whose value is neither [undefined] nor
    [null], with the value turned into a string by [String(...)], in
    the order of [Object.entries]: array-index keys first, ascending,
    then the other keys in the order of assignment (which is the whole
    order when no key is an array index).  Entries with [undefined] or
    [null] are left out.  With the query object omitted, [null] or
    empty there is no parameter. *)
Theorem get_keeps_defined_entries_in_order
        (T : Type) (http : HttpClient T) (this : JustCmsService.t)
        (endpoint : maybe string) (q : object) :
  NoDup (List.map fst q) ->
  List.map params (sent (get http this endpoint (def q)))
  = [ List.map (fun e => (fst e, String_ (snd e)))
               (List.filter (fun e => not_nullish (snd e)) (entries q)) ]
  /\ (forallb (fun e => negb (is_array_index e)) q = true ->
      List.map params (sent (get http this endpoint (def q)))
      = [ List.map (fun e => (fst e, String_ (snd e)))
                   (List.filter (fun e => not_nullish (snd e)) q) ])
  /\ List.map params (sent (get http this endpoint undefined)) = [ [] ]
  /\ List.map params (sent (get http this endpoint null)) = [ [] ]
  /\ List.map params (sent (get http this endpoint (def []))) = [ [] ].
Proof.
  intro Hkeys.
  assert (Hentries : get_params (def q)
                     = List.map (fun e => (fst e, String_ (snd e)))
                                (List.filter (fun e => not_nullish (snd e))
                                             (entries q))).
  { unfold get_params, new_HttpParams.
    rewrite fold_add_entry; [reflexivity | ].
    simpl; apply (Permutation_NoDup (l := List.map fst q)); [ | exact Hkeys].
    apply Permutation_map, Permutation_sym, entries_perm. }
  rewrite !get_sent; unfold get_request; cbn [List.map params].
  split; [rewrite Hentries; reflexivity | ].
  split; [ | repeat split].
  intro Hplain; rewrite Hentries, (entries_no_index q Hplain); reflexivity.
Qed.

Lemma get_keeps_defined_entries_in_order_witness :
  NoDup (List.map fst [("b", def (PString "x")); ("2", def (PNumber (of_Z 7)));
                       ("a", null); ("1", def (PBoolean true));
                       ("d", undefined); ("c", def (PNumber (Finite false 15 1)))])
  /\ List.map params
       (sent (get (fun _ => @inl _ Menu.t not_found) demo_service
                  (def "pages")
                  (def [("b", def (PString "x")); ("2", def (PNumber (of_Z 7)));
                        ("a", null); ("1", def (PBoolean true));
                        ("d", undefined);
                        ("c", def (PNumber (Finite false 15 1)))])))
     = [ [("1", "true"); ("2", "7"); ("b", "x"); ("c", "1.5")] ].
Proof.
  assert (Hkeys : NoDup ["b"; "2"; "a"; "1"; "d"; "c"]).
  { repeat constructor; simpl; intuition discriminate. }
  split; [exact Hkeys | ].
  exact (proj1 (get_keeps_defined_entries_in_order
                  Menu.t (fun _ => inl not_found) demo_service (def "pages")
                  [("b", def (PString "x")); ("2", def (PNumber (of_Z 7)));
                   ("a", null); ("1", def (PBoolean true));
                   ("d", undefined); ("c", def (PNumber (Finite false 15 1)))]
                  Hkeys)).
Defined.

(** ** [null] in the argument of [getPages] *)

(** X7.  For [getPages], [null] behaves like [undefined] at every level
    of the argument: a [null] argument, [null] filters, a [null]
    category, a [null] slug, a [null] start or a [null] offset give the
    same request and the same outcome as the call with that member left
    out.  (A [null] start or offset passes the guard of [getPages] and
    is then dropped by [get].) *)
Theorem getPages_null_behaves_like_undefined
        (http : HttpClient PagesResponse.t) (this : JustCmsService.t) :
  getPages http this null = getPages http this undefined
  /\ (forall start offset,
         getPages http this
                  (def {| filters := null; start := start; offset := offset |})
         = getPages http this (def (unfiltered_page_params start offset))
         /\ getPages http this
                     (def {| filters := def {| PageFilters.category := null |};
                             start := start; offset := offset |})
            = getPages http this (def (unfiltered_page_params start offset))
         /\ getPages http this
                     (def {| filters :=
                               def {| PageFilters.category :=
                                        def {| PageFilters.slug := null |} |};
                             start := start; offset := offset |})
            = getPages http this (def (unfiltered_page_params start offset)))
  /\ (forall filters offset,
         getPages http this
                  (def {| filters := filters; start := null; offset := offset |})
         = getPages http this
                    (def {| filters := filters; start := undefined;
                            offset := offset |}))
  /\ (forall filters start,
         getPages http this
                  (def {| filters := filters; start := start; offset := null |})
         = getPages http this
                    (def {| filters := filters; start := start;
                            offset := undefined |})).
Proof.
  unfold getPages.
  split; [reflexivity | split; [ | split]].
  - intros start offset; repeat split;
      apply get_ext; rewrite !getPages_params_by_cases; reflexivity.
  - intros filters offset.
    apply get_ext; rewrite !getPages_params_by_cases; reflexivity.
  - intros filters start.
    apply get_ext; rewrite !getPages_params_by_cases; reflexivity.
Qed.

(** ** URLs *)

(** X8.  On one client the URL tells the resource: two page requests
    have the same URL only for the same slug, two menu requests only
    for the same id, and the URLs of the categories, of the page list,
    of a page and of a menu are never equal to one another. *)
Theorem urls_identify_the_resource (this : JustCmsService.t) :
  (forall hp hp' slug slug' version version',
      List.map url (sent (getPageBySlug hp this slug version))
      = List.map url (sent (getPageBySlug hp' this slug' version')) ->
      slug = slug')
  /\ (forall hm hm' id id',
         List.map url (sent (getMenuById hm this id))
         = List.map url (sent (getMenuById hm' this id')) ->
         id = id')
  /\ (forall hp hm slug version id,
         List.map url (sent (getPageBySlug hp this slug version))
         <> List.map url (sent (getMenuById hm this id)))
  /\ (forall hp hl slug version params,
         List.map url (sent (getPageBySlug hp this slug version))
         <> List.map url (sent (getPages hl this params)))
  /\ (forall hp hc slug version,
         List.map url (sent (getPageBySlug hp this slug version))
         <> List.map url (sent (getCategories hc this)))
  /\ (forall hm hl id params,
         List.map url (sent (getMenuById hm this id))
         <> List.map url (sent (getPages hl this params)))
  /\ (forall hm hc id,
         List.map url (sent (getMenuById hm this id))
         <> List.map url (sent (getCategories hc this)))
  /\ (forall hl hc params,
         List.map url (sent (getPages hl this params))
         <> List.map url (sent (getCategories hc this))).
Proof.
  repeat match goal with |- _ /\ _ => split end; intros;
    repeat match goal with
           | |- _ <> _ => intro
           | H : context [sent (getPageBySlug _ _ _ _)] |- _ =>
               rewrite getPageBySlug_sent in H
           | H : context [sent (getMenuById _ _ _)] |- _ =>
               rewrite getMenuById_sent in H
           | H : context [sent (getPages _ _ _)] |- _ =>
               rewrite getPages_sent in H
           | H : context [sent (getCategories _ _)] |- _ =>
               rewrite getCategories_sent in H
           end;
    match goal with
    | H : List.map url _ = List.map url _ |- _ =>
        unfold get_request, get_url in H; cbn [List.map url] in H;
        injection H as H; apply append_inv_head in H; simpl in H;
        first [discriminate H | injection H as H; exact H]
    end.
Qed.

Lemma urls_identify_the_resource_witness :
  List.map url (sent (getPageBySlug (fun _ => inl not_found) demo_service
                                    "about-us" undefined))
  = List.map url (sent (getPageBySlug (fun _ => inr sample_page) demo_service
                                      "about-us" (def "draft")))
  /\ "about-us" = "about-us".
Proof.
  split; [reflexivity | ].
  apply (proj1 (urls_identify_the_resource demo_service)
               (fun _ => inl not_found) (fun _ => inr sample_page)
               "about-us" "about-us" undefined (def "draft")).
  reflexivity.
Defined.

(** ** The normalized error message *)

Lemma digits_then_colon (d d' : Decimal.uint) (x y : string) :
  DecimalString.NilEmpty.string_of_uint d ++ ": " ++ x
  = DecimalString.NilEmpty.string_of_uint d' ++ ": " ++ y ->
  d = d' /\ x = y.
Proof.
  revert d'; induction d as [ | d IH | d IH | d IH | d IH | d IH
                              | d IH | d IH | d IH | d IH | d IH];
    intros [ | d' | d' | d' | d' | d' | d' | d' | d' | d' | d']; simpl;
    intro E; try discriminate E;
    injection E as E;
    try (destruct (IH _ E) as [-> ->]; split; reflexivity).
  split; [reflexivity | exact E].
Qed.

Lemma integer_then_colon (n m : integer) (x y : string) :
  integer_toString n ++ ": " ++ x = integer_toString m ++ ": " ++ y ->
  n = m /\ x = y.
Proof.
  unfold integer_toString; intro E.
  assert (Hint : Z.to_int n = Z.to_int m /\ x = y).
  { destruct (Z.to_int n) as [d | d], (Z.to_int m) as [d' | d'];
      simpl in E.
    - destruct (digits_then_colon _ _ _ _ E) as [-> ->]; auto.
    - destruct d; discriminate E.
    - destruct d'; discriminate E.
    - injection E as E.
      destruct (digits_then_colon _ _ _ _ E) as [-> ->]; auto. }
  destruct Hint as [Hint ->]; split; [ | reflexivity].
  apply DecimalZ.to_int_inj; exact Hint.
Qed.

(** X9.  The normalized message loses nothing: two transport failures
    that are reported with the same message had the same status and the
    same transport message. *)
Theorem error_message_determines_failure (failure failure' : HttpErrorResponse) :
  get_errorMsg failure = get_errorMsg failure' -> failure = failure'.
Proof.
  unfold get_errorMsg; intro E.
  apply append_inv_head, integer_then_colon in E.
  destruct failure, failure'; simpl in E; destruct E as [-> ->]; reflexivity.
Qed.

Lemma error_message_determines_failure_witness :
  get_errorMsg not_found
  = get_errorMsg {| status := 404%Z; Ng.message := "Not Found" |}
  /\ not_found = {| status := 404%Z; Ng.message := "Not Found" |}.
Proof.
  split; [reflexivity | ].
  apply (error_message_determines_failure
           not_found {| status := 404%Z; Ng.message := "Not Found" |}).
  reflexivity.
Defined.

(** ** The helpers, once more *)

(** X10.  [hasCategory] looks at the slugs of the page's categories and
    at nothing else: two pages whose categories carry the same slugs (in
    any order, repeated or not, under any names) get the same answer for
    every slug, and a page without categories has no category. *)
Theorem hasCategory_depends_on_slugs_only :
  (forall (page page' : PageDetail.t),
      (forall s, In s (List.map Category.slug (PageDetail.categories page))
                 <-> In s (List.map Category.slug (PageDetail.categories page'))) ->
      forall categorySlug,
        hasCategory page categorySlug = hasCategory page' categorySlug)
  /\ (forall (page : PageDetail.t) (categorySlug : string),
         PageDetail.categories page = [] ->
         hasCategory page categorySlug = false).
Proof.
  split.
  - intros page page' Hsame categorySlug; unfold hasCategory.
    apply eq_true_iff_eq; rewrite !includes_In; apply Hsame.
  - intros page categorySlug Hnone; unfold hasCategory.
    rewrite Hnone; reflexivity.
Qed.

Lemma hasCategory_depends_on_slugs_only_witness :
  (forall s,
      In s (List.map Category.slug (PageDetail.categories sample_page))
      <-> In s (List.map Category.slug (PageDetail.categories shuffled_page)))
  /\ hasCategory sample_page "news" = hasCategory shuffled_page "news".
Proof.
  assert (Hsame : forall s,
             In s (List.map Category.slug (PageDetail.categories sample_page))
             <-> In s (List.map Category.slug
                                (PageDetail.categories shuffled_page)))
    by (intro s; simpl; tauto).
  split; [exact Hsame | ].
  apply (proj1 hasCategory_depends_on_slugs_only
               sample_page shuffled_page Hsame "news").
Defined.

Lemma lower_char_idempotent (c : ascii) :
  lower_char (lower_char c) = lower_char c.
Proof.
  destruct c as [[|] [|] [|] [|] [|] [|] [|] [|]]; vm_compute; reflexivity.
Qed.

Lemma lower_char_ascii (c : ascii) :
  Nat.ltb (nat_of_ascii (lower_char c)) 128 = Nat.ltb (nat_of_ascii c) 128.
Proof.
  destruct c as [[|] [|] [|] [|] [|] [|] [|] [|]]; vm_compute; reflexivity.
Qed.

Lemma ascii_toLowerCase_idempotent (s : string) :
  ascii_toLowerCase (ascii_toLowerCase s) = ascii_toLowerCase s.
Proof.
  induction s as [ | c s IH]; simpl; [ | rewrite lower_char_idempotent, IH];
    reflexivity.
Qed.

Lemma ascii_toLowerCase_is_ascii (s : string) :
  is_ascii (ascii_toLowerCase s) = is_ascii s.
Proof.
  induction s as [ | c s IH]; simpl; [ | rewrite lower_char_ascii, IH];
    reflexivity.
Qed.

(** X11.  On a block with a styles list, a style that occurs in
    [block.styles] as written is always found by [isBlockHasStyle]; a
    listed ASCII style is found under every ASCII spelling that differs
    from it only in the case of letters; and for an ASCII query it makes
    no difference whether the caller lower-cases it first. *)
Theorem isBlockHasStyle_finds_listed_styles
        (R : CaseConversion) (A : Type) (HA : HasStyles A) (block : A)
        (listed : list string) :
  styles block = def listed ->
  (forall style, In style listed -> isBlockHasStyle block style = Value true)
  /\ (forall s style,
         In s listed -> is_ascii s = true -> is_ascii style = true ->
         ascii_toLowerCase s = ascii_toLowerCase style ->
         isBlockHasStyle block style = Value true)
  /\ (forall style,
         is_ascii style = true ->
         isBlockHasStyle block (toLowerCase style)
         = isBlockHasStyle block style).
Proof.
  intro Hstyles; unfold isBlockHasStyle; rewrite Hstyles.
  split; [ | split].
  - intros style HIn; f_equal.
    apply includes_In, (in_map toLowerCase); exact HIn.
  - intros s style HIn Hs Hstyle Hsame; f_equal.
    apply includes_In, in_map_iff; exists s; split; [ | exact HIn].
    rewrite !toLowerCase_ascii by assumption; exact Hsame.
  - intros style Hstyle.
    rewrite (toLowerCase_ascii style Hstyle).
    rewrite (toLowerCase_ascii (ascii_toLowerCase style))
      by (rewrite ascii_toLowerCase_is_ascii; exact Hstyle).
    rewrite ascii_toLowerCase_idempotent; reflexivity.
Qed.

Lemma isBlockHasStyle_finds_listed_styles_witness :
  @styles ContentBlock _
          (image {| ImageBlock.styles := ["Wide"; "Dark"];
                    ImageBlock.images := [cover_image] |})
  = def ["Wide"; "Dark"]
  /\ (In "Dark" ["Wide"; "Dark"]
      /\ is_ascii "Dark" = true /\ is_ascii "DARK" = true
      /\ ascii_toLowerCase "Dark" = ascii_toLowerCase "DARK")
  /\ @isBlockHasStyle ascii_runtime ContentBlock _
                      (image {| ImageBlock.styles := ["Wide"; "Dark"];
                                ImageBlock.images := [cover_image] |})
                      "DARK"
     = Value true.
Proof.
  split; [reflexivity | ].
  assert (HIn : In "Dark" ["Wide"; "Dark"]) by (right; left; reflexivity).
  split; [repeat split; [exact HIn] | ].
  apply (proj1 (proj2 (isBlockHasStyle_finds_listed_styles
                         ascii_runtime ContentBlock _
                         (image {| ImageBlock.styles := ["Wide"; "Dark"];
                                   ImageBlock.images := [cover_image] |})
                         ["Wide"; "Dark"] eq_refl))
               "Dark" "DARK" HIn eq_refl eq_refl eq_refl).
Defined.
